(** * Verification of the ASTRID HUD backend (src/astrid/main.py)

    A shallow embedding of the intent classifier, the reply generator,
    the conversation log, the connection registry with its broadcast,
    the REST state operations and the websocket endpoint with its
    message handler. *)

From Stdlib Require Import Bool List Ascii String ZArith QArith Lia Permutation.
From Stdlib Require Import Numbers.DecimalString.
Import ListNotations.

Open Scope list_scope.

(** ** Python strings

    Python [str] values are modelled as ASCII character lists; string
    literals of the source are written as Rocq strings and converted. *)

Definition pystr := list ascii.

Coercion list_ascii_of_string : string >-> list.

(** [str.isspace] on ASCII: \t \n \v \f \r, the separators 0x1c..0x1f,
    and the space. *)
Definition is_space (c : ascii) : bool :=
  let n := nat_of_ascii c in
  ((9 <=? n) && (n <=? 13))%nat || ((28 <=? n) && (n <=? 32))%nat.

(** [str.lower] on ASCII: A..Z become a..z. *)
Definition lower_char (c : ascii) : ascii :=
  let n := nat_of_ascii c in
  if ((65 <=? n) && (n <=? 90))%nat then ascii_of_nat (n + 32) else c.

Definition lower (s : pystr) : pystr := map lower_char s.

Fixpoint lstrip (s : pystr) : pystr :=
  match s with
  | [] => []
  | c :: s' => if is_space c then lstrip s' else s
  end.

(** [str.strip()] with no argument. *)
Definition strip (s : pystr) : pystr := rev (lstrip (rev (lstrip s))).

Fixpoint is_prefix (w s : pystr) : bool :=
  match w, s with
  | [], _ => true
  | a :: w', b :: s' => Ascii.eqb a b && is_prefix w' s'
  | _ :: _, [] => false
  end.

(** Python's [word in s] on strings: substring containment. *)
Fixpoint contains (w s : pystr) : bool :=
  is_prefix w s ||
  match s with
  | [] => false
  | _ :: s' => contains w s'
  end.

(** [any(word in message_lower for word in words)] *)
Definition any_in (words : list pystr) (s : pystr) : bool :=
  existsb (fun w => contains w s) words.

(** [str.split()] with no argument: maximal runs of non-space characters. *)
Fixpoint split_words_acc (cur : pystr) (s : pystr) : list pystr :=
  match s with
  | [] => match cur with [] => [] | _ => [rev cur] end
  | c :: s' =>
      if is_space c then
        match cur with
        | [] => split_words_acc [] s'
        | _ => rev cur :: split_words_acc [] s'
        end
      else split_words_acc (c :: cur) s'
  end.

Definition split_words (s : pystr) : list pystr := split_words_acc [] s.

(** [str(n)] for a Python [int]. *)
Definition str_int (z : Z) : pystr :=
  list_ascii_of_string (NilEmpty.string_of_int (Z.to_int z)).

(** ** Intent classifier: [StatefulController.analyze_message] *)

Inductive intent :=
| Greeting | Status | Power | Battery | Water | Maintenance | Unknown.

Definition greeting_words : list pystr :=
  map list_ascii_of_string ["hello"; "hi"; "hey"; "greetings"]%string.
Definition status_words : list pystr :=
  map list_ascii_of_string ["status"; "how"; "what"; "condition"; "state"]%string.
Definition power_words : list pystr :=
  map list_ascii_of_string ["power"; "electricity"; "watt"; "consumption"; "generation"]%string.
Definition battery_words : list pystr :=
  map list_ascii_of_string ["battery"; "capacity"; "charge"; "energy"; "storage"]%string.
Definition water_words : list pystr :=
  map list_ascii_of_string ["water"; "reserve"; "level"; "tank"]%string.
Definition maintenance_words : list pystr :=
  map list_ascii_of_string ["maintenance"; "service"; "check"; "inspect"]%string.

(** The result dict [{"intent": ..., "confidence": ...}]; the float
    literals are kept as the exact rationals they denote. *)
Record analysis := mk_analysis { a_intent : intent; a_confidence : Q }.

Definition analyze_message (message : pystr) : analysis :=
  let message_lower := strip (lower message) in
  if any_in greeting_words message_lower then mk_analysis Greeting (9 # 10)
  else if any_in status_words message_lower then mk_analysis Status (8 # 10)
  else if any_in power_words message_lower then mk_analysis Power (85 # 100)
  else if any_in battery_words message_lower then mk_analysis Battery (9 # 10)
  else if any_in water_words message_lower then mk_analysis Water (7 # 10)
  else if any_in maintenance_words message_lower then mk_analysis Maintenance (8 # 10)
  else mk_analysis Unknown (3 # 10).

(** ** HUD state and the reply generator *)

Open Scope Z_scope.

(** A Python [float]: a finite value (modelled by the rational it
    denotes), an infinity, or NaN.  pydantic's [float] accepts all of
    them, and a JSON body [1e400] or [NaN] parses to [inf] or [nan]. *)
Inductive pyfloat := Fin (q : Q) | PInf | NInf | NaN.

(** Exceptions a modelled operation can raise ([RuntimeError] stands for
    whatever a failed [send_json] raises). *)
Inductive exn := TypeError | OverflowError | ValueError | RuntimeError.

Inductive result (A : Type) := Ok (a : A) | Err (e : exn).
Arguments Ok {A} a.
Arguments Err {A} e.

(** Truncation toward zero. *)
Definition trunc (q : Q) : Z := Z.quot (Qnum q) (Zpos (Qden q)).

(** [int(x)] on a float truncates toward zero; [int(inf)] raises
    [OverflowError] and [int(nan)] raises [ValueError]. *)
Definition int_of_float (x : pyfloat) : result Z :=
  match x with
  | Fin q => Ok (trunc q)
  | PInf | NInf => Err OverflowError
  | NaN => Err ValueError
  end.

(** [HudState].  Fields are assigned with [setattr] in [update_state],
    which does not re-validate, and [StateUpdate] accepts an explicit
    [null] for each field: so every field may hold Python [None]
    (modelled by [None]). *)
Record HudState := mkHud {
  headline : option pystr;
  eve : option pystr;
  battery_pct : option pyfloat;
  load_w : option pyfloat;
  sun_w : option pyfloat;
  load_min_w : option pyfloat;
  load_max_w : option pyfloat;
  sun_min_w : option pyfloat;
  sun_max_w : option pyfloat;
  last_user_line : option pystr;
  bot_reply_pending : option pystr
}.

Definition STATE0 : HudState := {|
  headline := Some (list_ascii_of_string "BRAM HOUSE"%string);
  eve := Some (list_ascii_of_string "EVE"%string);
  battery_pct := Some (Fin (76 # 1));
  load_w := Some (Fin (1344 # 1));
  sun_w := Some (Fin (8000 # 1));
  load_min_w := Some (Fin (0 # 1));
  load_max_w := Some (Fin (5000 # 1));
  sun_min_w := Some (Fin (0 # 1));
  sun_max_w := Some (Fin (8000 # 1));
  last_user_line := Some (list_ascii_of_string "HELLO ASTRID, HOW ARE MY RESERVE WATER LEVELS?"%string);
  bot_reply_pending := None |}.

Definition set_last_user_line (v : option pystr) (s : HudState) : HudState :=
  {| headline := headline s; eve := eve s; battery_pct := battery_pct s;
     load_w := load_w s; sun_w := sun_w s; load_min_w := load_min_w s;
     load_max_w := load_max_w s; sun_min_w := sun_min_w s;
     sun_max_w := sun_max_w s; last_user_line := v;
     bot_reply_pending := bot_reply_pending s |}.

Definition set_bot_reply_pending (v : option pystr) (s : HudState) : HudState :=
  {| headline := headline s; eve := eve s; battery_pct := battery_pct s;
     load_w := load_w s; sun_w := sun_w s; load_min_w := load_min_w s;
     load_max_w := load_max_w s; sun_min_w := sun_min_w s;
     sun_max_w := sun_max_w s; last_user_line := last_user_line s;
     bot_reply_pending := v |}.

(** [int(v)] on a field that may hold [None]: [int(None)] raises
    [TypeError]. *)
Definition py_int (v : option pyfloat) : result Z :=
  match v with Some x => int_of_float x | None => Err TypeError end.

(** Time is a [datetime] counted in microseconds. *)
Definition usec_per_day : Z := 86400000000.

(** An entry [{"timestamp": datetime.now(), "user": ..., "bot": ...}]. *)
Record entry := mk_entry { timestamp : Z; user : pystr; bot : pystr }.

(** The state of [StatefulController] read or written by the modelled
    operations.  [user_preferences], [alerts], [mode] and
    [response_patterns] are never modified after [__init__]; the
    response patterns are inlined in [generate_response]. *)
Record Controller := mkController {
  conversation_history : list entry;
  last_maintenance : Z
}.

Definition init_controller (now : Z) : Controller :=
  mkController [] (now - 7 * usec_per_day).

(** [random.choice(xs)]: the random source is the index [r]. *)
Definition choice {A} (r : nat) (d : A) (xs : list A) : A :=
  nth (r mod List.length xs)%nat xs d.

Definition maintenance_reply (days_since : Z) : pystr :=
  if 30 <? days_since then
    list_ascii_of_string "System maintenance is overdue by " ++
      str_int (days_since - 30) ++
      list_ascii_of_string " days. Recommend scheduling a service check."
  else
    let days_until := 30 - days_since in
    list_ascii_of_string "Last maintenance was " ++ str_int days_since ++
      list_ascii_of_string " days ago. Next scheduled maintenance in " ++
      str_int days_until ++ list_ascii_of_string " days.".

(** [self.response_patterns]: the canned replies, and the templates
    with their [format] placeholders filled in by the arguments. *)
Definition greeting_patterns : list pystr :=
  map list_ascii_of_string [
    "Greetings, human. How may I assist you today?";
    "Hello there. What would you like to know about your systems?";
    "ASTRID online and ready. What's your query?"]%string.

Definition status_patterns : list pystr :=
  map list_ascii_of_string [
    "Current system status: All systems operational.";
    "Status check complete. Everything is running within normal parameters.";
    "Systems are functioning at optimal levels."]%string.

Definition power_patterns (load sun battery : pystr) : list pystr := [
  list_ascii_of_string "Power consumption is currently at " ++ load ++
    list_ascii_of_string "W with " ++ sun ++ list_ascii_of_string "W solar generation.";
  list_ascii_of_string "Your power grid shows " ++ load ++
    list_ascii_of_string "W load against " ++ sun ++ list_ascii_of_string "W solar input.";
  list_ascii_of_string "Power status: " ++ battery ++
    list_ascii_of_string "% battery, " ++ load ++
    list_ascii_of_string "W consumption, " ++ sun ++ list_ascii_of_string "W generation."].

Definition battery_patterns (battery : pystr) : list pystr := [
  list_ascii_of_string "Battery capacity is at " ++ battery ++ list_ascii_of_string "%.";
  list_ascii_of_string "Your energy storage shows " ++ battery ++
    list_ascii_of_string "% remaining.";
  list_ascii_of_string "Battery status: " ++ battery ++
    list_ascii_of_string "% capacity available."].

Definition unknown_patterns : list pystr :=
  map list_ascii_of_string [
    "I'm not sure I understand that query. Could you rephrase?";
    "That's outside my current knowledge base. Try asking about power, battery, or system status.";
    "I need more context to help you with that request."]%string.

Definition water_reply : pystr :=
  list_ascii_of_string "I don't have access to water system sensors at the moment. My current monitoring is limited to power systems.".

(** [StatefulController.generate_response]; [now] is [datetime.now()]
    and [r] the random choice.  The keyword arguments of [format] are
    evaluated left to right, so the first [int(...)] that raises gives
    the exception. *)
Definition generate_response (st : HudState) (c : Controller) (now : Z) (r : nat)
    (message : pystr) (i : intent) : result pystr :=
  match i with
  | Greeting => Ok (choice r [] greeting_patterns)
  | Status => Ok (choice r [] status_patterns)
  | Power =>
      match py_int (load_w st) with
      | Err e => Err e
      | Ok lw =>
          match py_int (sun_w st) with
          | Err e => Err e
          | Ok sw =>
              match py_int (battery_pct st) with
              | Err e => Err e
              | Ok bp =>
                  Ok (choice r [] (power_patterns (str_int lw) (str_int sw) (str_int bp)))
              end
          end
      end
  | Battery =>
      match py_int (battery_pct st) with
      | Ok bp => Ok (choice r [] (battery_patterns (str_int bp)))
      | Err e => Err e
      end
  | Water => Ok water_reply
  | Maintenance =>
      let days_since := (now - last_maintenance c) / usec_per_day in
      Ok (maintenance_reply days_since)
  | Unknown => Ok (choice r [] unknown_patterns)
  end.

(** [StatefulController.add_to_history]. *)
Definition add_to_history (now : Z) (user_message bot_response : pystr)
    (h : list entry) : list entry :=
  let h' := h ++ [mk_entry now user_message bot_response] in
  if (20 <? List.length h')%nat then tl h' else h'.

(** [StatefulController.process_message]: [t_gen] and [t_add] are the
    two [datetime.now()] readings (in [generate_response] and in
    [add_to_history]).  An exception leaves the controller as it was. *)
Definition process_message (st : HudState) (c : Controller) (t_gen t_add : Z)
    (r : nat) (message : pystr) : result pystr * Controller :=
  let analysis := analyze_message message in
  let i := a_intent analysis in
  match generate_response st c t_gen r message i with
  | Ok response =>
      (Ok response,
       mkController (add_to_history t_add message response (conversation_history c))
                    (last_maintenance c))
  | Err e => (Err e, c)
  end.

(** ** Connection registry and broadcast *)

(** A websocket is an opaque handle. *)
Definition chan := nat.

(** Outbound events (the JSON objects passed to [send_json]). *)
Inductive event :=
| EvState (data : HudState)
| EvUserLine (text : option pystr)
| EvClearCenter
| EvBotReply (text : option pystr).

(** The process-wide state: [STATE], [controller], [manager.active] and
    the log of successful [send_json] deliveries, oldest first. *)
Record World := mkWorld {
  w_state : HudState;
  w_controller : Controller;
  active : list chan;
  sent : list (chan * event)
}.

Definition with_state (s : HudState) (w : World) : World :=
  mkWorld s (w_controller w) (active w) (sent w).
Definition with_controller (c : Controller) (w : World) : World :=
  mkWorld (w_state w) c (active w) (sent w).

(** The outcome of a send on a channel: [ok ws = false] means
    [ws.send_json] raises (the client is gone). *)
Definition send_json (ok : chan -> bool) (ws : chan) (message : event)
    (log : list (chan * event)) : result (list (chan * event)) :=
  if ok ws then Ok (log ++ [(ws, message)]) else Err RuntimeError.

(** The loop of [ConnectionManager.broadcast]: [living] collects the
    channels whose send went through; a failed send is swallowed by
    [except Exception: pass]. *)
Fixpoint broadcast_loop (ok : chan -> bool) (message : event) (todo living : list chan)
    (log : list (chan * event)) : list chan * list (chan * event) :=
  match todo with
  | [] => (living, log)
  | ws :: rest =>
      match send_json ok ws message log with
      | Ok log' => broadcast_loop ok message rest (living ++ [ws]) log'
      | Err _ => broadcast_loop ok message rest living log
      end
  end.

(** [ConnectionManager.broadcast]: never raises; [self.active = living]. *)
Definition broadcast (ok : chan -> bool) (message : event) (w : World) : result unit * World :=
  let (living, log) := broadcast_loop ok message (active w) [] (sent w) in
  (Ok tt, mkWorld (w_state w) (w_controller w) living log).

(** [ConnectionManager.disconnect]: [list.remove] drops the first
    occurrence, and only when present. *)
Fixpoint remove_first (ws : chan) (l : list chan) : list chan :=
  match l with
  | [] => []
  | x :: l' => if Nat.eqb x ws then l' else x :: remove_first ws l'
  end.

Definition disconnect (ws : chan) (w : World) : World :=
  mkWorld (w_state w) (w_controller w)
    (if existsb (Nat.eqb ws) (active w) then remove_first ws (active w) else active w)
    (sent w).

(** ** REST operations *)

(** [StateUpdate] after [dict(exclude_unset=True)]: [None] for a field
    not sent, [Some v] for a field sent with value [v] (possibly [null]). *)
Record StateUpdate := mkUpdate {
  u_headline : option (option pystr);
  u_eve : option (option pystr);
  u_battery_pct : option (option pyfloat);
  u_load_w : option (option pyfloat);
  u_sun_w : option (option pyfloat);
  u_load_min_w : option (option pyfloat);
  u_load_max_w : option (option pyfloat);
  u_sun_min_w : option (option pyfloat);
  u_sun_max_w : option (option pyfloat);
  u_last_user_line : option (option pystr)
}.

(** [setattr(STATE, k, v)] for a key of [upd], or the old value. *)
Definition setattr_opt {A} (u : option A) (old : A) : A :=
  match u with Some v => v | None => old end.

Definition apply_update (u : StateUpdate) (s : HudState) : HudState :=
  {| headline := setattr_opt (u_headline u) (headline s);
     eve := setattr_opt (u_eve u) (eve s);
     battery_pct := setattr_opt (u_battery_pct u) (battery_pct s);
     load_w := setattr_opt (u_load_w u) (load_w s);
     sun_w := setattr_opt (u_sun_w u) (sun_w s);
     load_min_w := setattr_opt (u_load_min_w u) (load_min_w s);
     load_max_w := setattr_opt (u_load_max_w u) (load_max_w s);
     sun_min_w := setattr_opt (u_sun_min_w u) (sun_min_w s);
     sun_max_w := setattr_opt (u_sun_max_w u) (sun_max_w s);
     last_user_line := setattr_opt (u_last_user_line u) (last_user_line s);
     bot_reply_pending := bot_reply_pending s |}.

(** [PUT /api/state]: [update_state]. *)
Definition update_state (ok : chan -> bool) (u : StateUpdate) (w : World) : World :=
  let w1 := with_state (apply_update u (w_state w)) w in
  snd (broadcast ok (EvState (w_state w1)) w1).

(** [POST /api/bot_reply]: [bot_reply]. *)
Definition bot_reply (ok : chan -> bool) (text : pystr) (w : World) : World :=
  let w1 := with_state (set_bot_reply_pending (Some text) (w_state w)) w in
  let w2 := snd (broadcast ok (EvBotReply (bot_reply_pending (w_state w1))) w1) in
  with_state (set_bot_reply_pending None (w_state w2)) w2.

(** [POST /api/controller/process]: [process_message_directly]. *)
Definition process_message_directly (t_gen t_add : Z) (r : nat) (text : pystr)
    (w : World) : result (pystr * analysis) * World :=
  match process_message (w_state w) (w_controller w) t_gen t_add r text with
  | (Ok response, c') => (Ok (response, analyze_message text), with_controller c' w)
  | (Err e, c') => (Err e, with_controller c' w)
  end.

(** ** The websocket [user_message] branch of [websocket_endpoint] *)

(** One [await manager.broadcast(ev)] made by the handler: the world
    is updated and [ev] is appended to the handler's own trace of
    broadcast calls. *)
Definition bcast (ok : chan -> bool) (ev : event) (p : World * list event) : World * list event :=
  (snd (broadcast ok ev (fst p)), snd p ++ [ev]).

(** The outcome of one iteration of the [while True] loop of
    [websocket_endpoint]: the world, the handler's broadcast calls, and
    whether the loop goes on ([false]: an exception reached
    [except Exception], which disconnected [ws] and ended the task). *)
Record outcome := mk_outcome { o_world : World; o_calls : list event; o_alive : bool }.

(** The handling of [{"type": "user_message", "text": text}] received on
    [ws].  [ok1], [ok2], [ok3] give the send outcomes of the three
    broadcasts, [sleep] is whatever the other tasks do to the world
    during [await asyncio.sleep(1.5)].  An exception raised by
    [process_message] reaches [except Exception] and disconnects [ws]. *)
Definition handle_user_message (ok1 ok2 ok3 : chan -> bool) (sleep : World -> World)
    (t_gen t_add : Z) (r : nat) (ws : chan) (text : option pystr) (w : World)
    : outcome :=
  let user_text := strip (match text with Some t => t | None => [] end) in
  match user_text with
  | [] => mk_outcome w [] true
  | _ :: _ =>
      let w1 := with_state (set_last_user_line (Some user_text) (w_state w)) w in
      let p2 := bcast ok1 (EvUserLine (last_user_line (w_state w1))) (w1, []) in
      let p3 := bcast ok2 EvClearCenter p2 in
      let w3 := fst p3 in
      match process_message (w_state w3) (w_controller w3) t_gen t_add r user_text with
      | (Ok bot_response, c') =>
          let w4 := sleep (with_controller c' w3) in
          let p4 := bcast ok3 (EvBotReply (Some bot_response)) (w4, snd p3) in
          mk_outcome (fst p4) (snd p4) true
      | (Err _, c') => mk_outcome (disconnect ws (with_controller c' w3)) (snd p3) false
      end
  end.

(** ** Connecting and the other inbound frames *)

(** [ConnectionManager.send_state]: sends the full state to [ws] only. *)
Definition send_state (ok : chan -> bool) (ws : chan) (w : World) : result World :=
  match send_json ok ws (EvState (w_state w)) (sent w) with
  | Ok log => Ok (mkWorld (w_state w) (w_controller w) (active w) log)
  | Err e => Err e
  end.

(** [ConnectionManager.connect] ([ws.accept()] is taken to succeed): the
    channel is appended before the catch-up [send_state]; a failure of
    that send propagates out of [connect]. *)
Definition connect (ok : chan -> bool) (ws : chan) (w : World) : result unit * World :=
  let w1 := mkWorld (w_state w) (w_controller w) (active w ++ [ws]) (sent w) in
  match send_state ok ws w1 with
  | Ok w2 => (Ok tt, w2)
  | Err e => (Err e, w1)
  end.

(** [msg.get("type")]: the two handled values, anything else (or a
    missing key) is [TOther]. *)
Inductive msg_type := TUserMessage | TRequestState | TOther.

(** [msg.get("text")]: a string; a falsy value ([None] for a missing
    key, [null], [false], [0], an empty array or object), which
    [(... or "")] turns into the empty string; or a truthy non-string (a
    non-zero number, [true], a non-empty array or object), whose
    [.strip()] raises [AttributeError]. *)
Inductive text_value := TStr (s : pystr) | TFalsy | TNonStr.

(** A frame returned by [ws.receive_json()]: a JSON object, seen through
    [msg.get("type")] and [msg.get("text")], or anything else (an array,
    a string, a number, or text that is not JSON), on which
    [receive_json] or [msg.get] raises. *)
Inductive inbound := InObject (m_type : msg_type) (m_text : text_value) | InOther.

(** One iteration of the loop body on a received frame [m]: the
    [user_message] branch, the [request_state] branch (whose failed
    send reaches [except Exception]), the ignored other types, and the
    [AttributeError] of a non-object frame or of a truthy non-string
    text, which also reaches [except Exception] and disconnects [ws]. *)
Definition handle_message (ok1 ok2 ok3 : chan -> bool) (sleep : World -> World)
    (t_gen t_add : Z) (r : nat) (ws : chan) (m : inbound) (w : World) : outcome :=
  match m with
  | InOther => mk_outcome (disconnect ws w) [] false
  | InObject TUserMessage (TStr s) =>
      handle_user_message ok1 ok2 ok3 sleep t_gen t_add r ws (Some s) w
  | InObject TUserMessage TFalsy =>
      handle_user_message ok1 ok2 ok3 sleep t_gen t_add r ws None w
  | InObject TUserMessage TNonStr => mk_outcome (disconnect ws w) [] false
  | InObject TRequestState _ =>
      match send_state ok1 ws w with
      | Ok w' => mk_outcome w' [] true
      | Err _ => mk_outcome (disconnect ws w) [] false
      end
  | InObject TOther _ => mk_outcome w [] true
  end.

(** What the rest of the process does, and what the iteration reads,
    while [ws] waits for and handles one frame: [e_wait] acts while
    [receive_json] is pending, [e_sleep] during [asyncio.sleep(1.5)];
    then the send outcomes, clock readings and random choice of the
    iteration. *)
Record env := mk_env {
  e_wait : World -> World;
  e_ok1 : chan -> bool;
  e_ok2 : chan -> bool;
  e_ok3 : chan -> bool;
  e_sleep : World -> World;
  e_t_gen : Z;
  e_t_add : Z;
  e_r : nat
}.

(** The [try: while True] loop over the frames the client sends; when
    they run out, [receive_json] raises [WebSocketDisconnect] and [ws]
    is disconnected.  Frames after a fault are never read. *)
Fixpoint serve (ws : chan) (frames : list (env * inbound)) (w : World)
    : World * list event :=
  match frames with
  | [] => (disconnect ws w, [])
  | (e, m) :: rest =>
      let o := handle_message (e_ok1 e) (e_ok2 e) (e_ok3 e) (e_sleep e)
                 (e_t_gen e) (e_t_add e) (e_r e) ws m (e_wait e w) in
      if o_alive o then
        let p := serve ws rest (o_world o) in (fst p, o_calls o ++ snd p)
      else (o_world o, o_calls o)
  end.

(** A finished run of the endpoint: how it ended, the world, and the
    broadcast calls made by its handler. *)
Record session := mk_session {
  ses_result : result unit;
  ses_world : World;
  ses_calls : list event
}.

(** [websocket_endpoint]: [manager.connect(ws)] runs before the [try],
    so an exception from it leaves the endpoint at once, with no
    [disconnect]. *)
Definition websocket_endpoint (ok : chan -> bool) (ws : chan)
    (frames : list (env * inbound)) (w : World) : session :=
  match connect ok ws w with
  | (Err e, w1) => mk_session (Err e) w1 []
  | (Ok _, w1) => let p := serve ws frames w1 in mk_session (Ok tt) (fst p) (snd p)
  end.

(** Successive [await manager.broadcast(ev)] calls, each with its own
    send outcomes. *)
Definition broadcast_seq (evs : list ((chan -> bool) * event)) (w : World) : World :=
  fold_left (fun v p => snd (broadcast (fst p) (snd p) v)) evs w.

(** ** Auxiliary definitions for the statements *)

(** A keyword list whose words survive the normalisation of
    [analyze_message]. *)
Definition plain_words (ws : list pystr) : bool :=
  forallb (fun w =>
    negb (Nat.eqb (List.length w) 0) &&
    forallb (fun c => negb (is_space c)) w &&
    (if list_eq_dec ascii_dec (lower w) w then true else false)) ws.

(** The confidence table of the specification, per intent. *)
Definition spec_confidence (i : intent) : Q :=
  match i with
  | Greeting => 9 # 10 | Status => 8 # 10 | Power => 85 # 100
  | Battery => 9 # 10 | Water => 7 # 10 | Maintenance => 8 # 10
  | Unknown => 3 # 10
  end.

(** The keyword sets in the order [analyze_message] tests them. *)
Definition keyword_sets : list (list pystr) :=
  [greeting_words; status_words; power_words; battery_words; water_words;
   maintenance_words].

(** Whole-word membership: [w in s.split()]. *)
Definition word_in (w s : pystr) : bool :=
  existsb (fun v => if list_eq_dec ascii_dec v w then true else false) (split_words s).

(** The conversation log after a sequence of [add_to_history] calls
    from an empty log, each entry carrying its own timestamp. *)
Definition run_history (es : list entry) : list entry :=
  fold_left (fun h e => add_to_history (timestamp e) (user e) (bot e) h) es [].

(** A field after a partial update: the supplied value when the field
    is present in the update, the prior value otherwise. *)
Definition field_updated {A} (old new : A) (u : option A) : Prop :=
  match u with None => new = old | Some v => new = v end.

(** Whether [generate_response] returns normally for an intent: the
    [int(...)] conversions of the templated replies need the numeric
    fields to hold finite numbers. *)
Definition is_finite (o : option pyfloat) : bool :=
  match o with Some (Fin _) => true | _ => false end.

Definition can_generate (st : HudState) (i : intent) : bool :=
  match i with
  | Power => is_finite (load_w st) && is_finite (sun_w st) && is_finite (battery_pct st)
  | Battery => is_finite (battery_pct st)
  | _ => true
  end.

(** The exception Python's [int()] raises on a field value, if any:
    [TypeError] on [None], [OverflowError] on an infinity, [ValueError]
    on NaN. *)
Definition int_error (v : option pyfloat) : option exn :=
  match v with
  | None => Some TypeError
  | Some (Fin _) => None
  | Some PInf | Some NInf => Some OverflowError
  | Some NaN => Some ValueError
  end.

(** The exception of the first value, in order, on which [int()] raises. *)
Fixpoint first_error (vs : list (option pyfloat)) : option exn :=
  match vs with
  | [] => None
  | v :: vs' => match int_error v with Some e => Some e | None => first_error vs' end
  end.

(** A frame that makes the handler act: a [user_message] object whose
    text is a string that is not blank. *)
Definition nonblank_user_message (m : inbound) : bool :=
  match m with
  | InObject TUserMessage (TStr s) => match strip s with [] => false | _ => true end
  | _ => false
  end.

(** What the rest of the process may do while a session waits: keep the
    registry free of duplicates (channels are registered once, by their
    own [connect]) and only append deliveries. *)
Definition well_behaved (e : env) : Prop :=
  (forall v, NoDup (active v) -> NoDup (active (e_wait e v))) /\
  (forall v, NoDup (active v) -> NoDup (active (e_sleep e v))) /\
  (forall v, exists l, sent (e_wait e v) = sent v ++ l) /\
  (forall v, exists l, sent (e_sleep e v) = sent v ++ l).

(** The events delivered to channel [c], oldest first. *)
Definition chan_log (c : chan) (l : list (chan * event)) : list event :=
  map snd (filter (fun p => Nat.eqb (fst p) c) l).

(** [{"load_w": 1e400}] sent to [PUT /api/state]: the JSON number
    parses to [inf], which pydantic's [float] accepts. *)
Definition inf_load_update : StateUpdate :=
  mkUpdate None None None (Some (Some PInf)) None None None None None None.

(** Two partial updates applied one after the other, as one update:
    a field sent by the second wins. *)
Definition merge_opt {A} (o1 o2 : option A) : option A :=
  match o2 with Some v => Some v | None => o1 end.

Definition merge_update (u1 u2 : StateUpdate) : StateUpdate :=
  mkUpdate (merge_opt (u_headline u1) (u_headline u2)) (merge_opt (u_eve u1) (u_eve u2))
    (merge_opt (u_battery_pct u1) (u_battery_pct u2))
    (merge_opt (u_load_w u1) (u_load_w u2)) (merge_opt (u_sun_w u1) (u_sun_w u2))
    (merge_opt (u_load_min_w u1) (u_load_min_w u2))
    (merge_opt (u_load_max_w u1) (u_load_max_w u2))
    (merge_opt (u_sun_min_w u1) (u_sun_min_w u2))
    (merge_opt (u_sun_max_w u1) (u_sun_max_w u2))
    (merge_opt (u_last_user_line u1) (u_last_user_line u2)).

(** A reply that is returned normally and is one of [xs]. *)
Definition returns_one_of (res : result pystr) (xs : list pystr) : Prop :=
  match res with Ok x => In x xs | Err _ => False end.

(** ** Facts about the string primitives *)

Lemma is_prefix_app : forall w b, is_prefix w (w ++ b) = true.
Proof.
  induction w as [|x w IH]; intros b; simpl; [reflexivity|].
  rewrite Ascii.eqb_refl, IH. reflexivity.
Qed.

Lemma is_prefix_spec : forall w s, is_prefix w s = true -> exists b, s = w ++ b.
Proof.
  induction w as [|x w IH]; intros s H.
  - exists s. reflexivity.
  - destruct s as [|y s]; simpl in H; [discriminate|].
    apply andb_true_iff in H as [Hxy Hw].
    apply Ascii.eqb_eq in Hxy. subst y.
    destruct (IH s Hw) as [b ->]. exists b. reflexivity.
Qed.

Lemma contains_app : forall w a b, contains w (a ++ w ++ b) = true.
Proof.
  intros w a b. induction a as [|x a IH].
  - destruct w as [|y w]; simpl.
    + destruct b; reflexivity.
    + rewrite Ascii.eqb_refl, is_prefix_app. reflexivity.
  - simpl. rewrite IH, orb_true_r. reflexivity.
Qed.

Lemma contains_spec : forall w s, contains w s = true -> exists a b, s = a ++ w ++ b.
Proof.
  intros w s. induction s as [|x s IH]; intros H; simpl in H.
  - rewrite orb_false_r in H. apply is_prefix_spec in H as [b Hb].
    exists [], b. exact Hb.
  - apply orb_true_iff in H as [H|H].
    + apply is_prefix_spec in H as [b Hb]. exists [], b. exact Hb.
    + destruct (IH H) as [a [b ->]]. exists (x :: a), b. reflexivity.
Qed.

Lemma lstrip_keeps : forall x w a b,
  is_space x = false -> exists a', lstrip (a ++ (x :: w) ++ b) = a' ++ (x :: w) ++ b.
Proof.
  intros x w a b Hx. induction a as [|y a IH]; simpl.
  - rewrite Hx. exists []. reflexivity.
  - destruct (is_space y).
    + exact IH.
    + exists (y :: a). reflexivity.
Qed.

(** A keyword made of non-space characters survives [strip]. *)
Lemma contains_strip : forall w s,
  w <> [] -> forallb (fun c => negb (is_space c)) w = true ->
  contains w s = true -> contains w (strip s) = true.
Proof.
  intros w s Hne Hns Hc.
  apply contains_spec in Hc as [a [b ->]].
  destruct w as [|x w]; [congruence|].
  assert (Hx : is_space x = false).
  { simpl in Hns. apply andb_true_iff in Hns as [H _]. now destruct (is_space x). }
  destruct (lstrip_keeps x w a b Hx) as [a' Ha'].
  unfold strip. rewrite Ha'.
  rewrite !rev_app_distr.
  destruct (rev (x :: w)) as [|y v] eqn:Hrev.
  { apply (f_equal (@List.length ascii)) in Hrev. rewrite length_rev in Hrev. discriminate. }
  assert (Hy : is_space y = false).
  { assert (Hin : In y (x :: w)) by (apply in_rev; rewrite Hrev; left; reflexivity).
    rewrite forallb_forall in Hns. specialize (Hns y Hin).
    now destruct (is_space y). }
  rewrite <- app_assoc.
  destruct (lstrip_keeps y v (rev b) (rev a') Hy) as [b' Hb'].
  rewrite Hb', <- Hrev, !rev_app_distr, !rev_involutive.
  rewrite <- app_assoc. apply contains_app.
Qed.

Lemma contains_lower : forall w s,
  lower w = w -> contains w s = true -> contains w (lower s) = true.
Proof.
  intros w s Hw Hc. apply contains_spec in Hc as [a [b ->]].
  unfold lower in *. rewrite !map_app, Hw. apply contains_app.
Qed.

Lemma any_in_normalize : forall ws m,
  plain_words ws = true -> any_in ws m = true -> any_in ws (strip (lower m)) = true.
Proof.
  intros ws m Hp Ha. unfold any_in in *.
  apply existsb_exists in Ha as [w [Hin Hc]].
  apply existsb_exists. exists w. split; [exact Hin|].
  unfold plain_words in Hp. rewrite forallb_forall in Hp.
  specialize (Hp w Hin). apply andb_true_iff in Hp as [Hp Hl].
  apply andb_true_iff in Hp as [Hn Hs].
  destruct (list_eq_dec ascii_dec (lower w) w) as [Hlw|]; [|discriminate].
  apply contains_strip; [| exact Hs |].
  - intros ->. discriminate.
  - apply contains_lower; assumption.
Qed.

Lemma status_words_plain : plain_words status_words = true.
Proof. vm_compute. reflexivity. Qed.

(** ** Intent classifier *)

(** C1 (amended): a message with a status keyword and a power keyword,
    and no greeting keyword in its lower-cased text, is classified as
    [status] with confidence 0.8; greeting is tested first. *)
Theorem classify_status_power_tiebreak : forall m,
  any_in status_words m = true ->
  any_in power_words m = true ->
  any_in greeting_words (strip (lower m)) = false ->
  analyze_message m = mk_analysis Status (8 # 10).
Proof.
  intros m Hs _ Hg. unfold analyze_message.
  rewrite Hg, (any_in_normalize _ _ status_words_plain Hs). reflexivity.
Qed.

Lemma classify_status_power_tiebreak_witness :
  let m := list_ascii_of_string "what is the power draw" in
  any_in status_words m = true /\ any_in power_words m = true /\
  any_in greeting_words (strip (lower m)) = false /\
  analyze_message m = mk_analysis Status (8 # 10).
Proof.
  intros m. assert (Hs : any_in status_words m = true) by reflexivity.
  assert (Hp : any_in power_words m = true) by reflexivity.
  assert (Hg : any_in greeting_words (strip (lower m)) = false) by reflexivity.
  split; [exact Hs|]. split; [exact Hp|]. split; [exact Hg|].
  exact (classify_status_power_tiebreak m Hs Hp Hg).
Defined.

(** C1 counterexample: "hello, what is the power" has a status keyword
    and a power keyword but is classified as [greeting]. *)
Lemma classify_status_power_greeting_first :
  let m := list_ascii_of_string "hello, what is the power" in
  any_in status_words m = true /\ any_in power_words m = true /\
  analyze_message m = mk_analysis Greeting (9 # 10).
Proof. repeat split; reflexivity. Qed.

(** C2: [analyze_message] returns the fixed confidence of the intent it
    picks, [unknown] (0.3) exactly when no keyword set matches the
    normalised message; "hello" is [greeting] 0.9 and
    "what is my battery level" is [status] 0.8. *)
Theorem classify_confidence_constants : forall m,
  a_confidence (analyze_message m) = spec_confidence (a_intent (analyze_message m)) /\
  (a_intent (analyze_message m) = Unknown <->
   forallb (fun ws => negb (any_in ws (strip (lower m)))) keyword_sets = true) /\
  analyze_message (list_ascii_of_string "hello") = mk_analysis Greeting (9 # 10) /\
  analyze_message (list_ascii_of_string "what is my battery level") =
    mk_analysis Status (8 # 10).
Proof.
  intros m. split; [|split; [|split; reflexivity]].
  - unfold analyze_message. cbv zeta. set (n := strip (lower m)).
    destruct (any_in greeting_words n); [reflexivity|].
    destruct (any_in status_words n); [reflexivity|].
    destruct (any_in power_words n); [reflexivity|].
    destruct (any_in battery_words n); [reflexivity|].
    destruct (any_in water_words n); [reflexivity|].
    destruct (any_in maintenance_words n); reflexivity.
  - unfold analyze_message, keyword_sets. cbv zeta. set (n := strip (lower m)). cbn [forallb].
    destruct (any_in greeting_words n); cbn [negb andb]; [split; intro H; discriminate H|].
    destruct (any_in status_words n); cbn [negb andb]; [split; intro H; discriminate H|].
    destruct (any_in power_words n); cbn [negb andb]; [split; intro H; discriminate H|].
    destruct (any_in battery_words n); cbn [negb andb]; [split; intro H; discriminate H|].
    destruct (any_in water_words n); cbn [negb andb]; [split; intro H; discriminate H|].
    destruct (any_in maintenance_words n); cbn [negb andb]; split; intro H; try discriminate H; reflexivity.
Qed.

(** C9 (amended): keyword matching is substring containment: any
    greeting keyword inside the normalised message yields [greeting]
    0.9, and "which mode", which has no greeting keyword as a word but
    has "hi" inside "which", is classified [greeting] 0.9. *)
Theorem classify_substring_match :
  (forall m, any_in greeting_words (strip (lower m)) = true ->
     analyze_message m = mk_analysis Greeting (9 # 10)) /\
  let m := list_ascii_of_string "which mode" in
  existsb (fun g => word_in g (strip (lower m))) greeting_words = false /\
  analyze_message m = mk_analysis Greeting (9 # 10).
Proof.
  split.
  - intros m H. unfold analyze_message. rewrite H. reflexivity.
  - split; reflexivity.
Qed.

(** C9 counterexample: "switch the mode" contains no greeting keyword,
    not even as a substring ("hi" does not occur in "switch"), and is
    classified [unknown] 0.3, not [greeting]. *)
Lemma classify_switch_the_mode_unknown :
  let m := list_ascii_of_string "switch the mode" in
  any_in greeting_words (strip (lower m)) = false /\
  analyze_message m = mk_analysis Unknown (3 # 10) /\
  analyze_message m <> mk_analysis Greeting (9 # 10).
Proof. split; [reflexivity|]. split; [reflexivity|]. discriminate. Qed.

(** ** Conversation log *)

Lemma run_history_snoc : forall es e,
  run_history (es ++ [e]) =
  add_to_history (timestamp e) (user e) (bot e) (run_history es).
Proof. intros es e. unfold run_history. rewrite fold_left_app. reflexivity. Qed.

Lemma tl_skipn : forall {A} k (l : list A), tl (skipn k l) = skipn (S k) l.
Proof.
  intros A k. induction k as [|k IH]; intros [|x l]; simpl; try reflexivity.
  apply IH.
Qed.

Lemma run_history_window : forall es,
  run_history es = skipn (List.length es - 20) es.
Proof.
  induction es as [|e es IH] using rev_ind; [reflexivity|].
  rewrite run_history_snoc, IH. unfold add_to_history.
  destruct e as [t u b]; cbn [timestamp user bot].
  rewrite length_app. cbn [List.length].
  set (n := List.length es).
  rewrite length_app, length_skipn. cbn [List.length]. fold n.
  destruct (Nat.ltb_spec 20 (n - (n - 20) + 1)) as [Hlt|Hge].
  - replace (n + 1 - 20)%nat with (S (n - 20)) by lia.
    rewrite skipn_app. fold n. replace (S (n - 20) - n)%nat with 0%nat by lia.
    rewrite <- tl_skipn.
    destruct (skipn (n - 20) es) as [|x l] eqn:E; simpl.
    + apply (f_equal (@List.length entry)) in E. rewrite length_skipn in E.
      fold n in E. simpl in E. lia.
    + simpl. reflexivity.
  - replace (n - 20)%nat with 0%nat in * by lia.
    replace (n + 1 - 20)%nat with 0%nat by lia. reflexivity.
Qed.

(** C3: starting from an empty log, any sequence of appends leaves at
    most 20 entries, namely the 20 most recent in order (the oldest is
    evicted first); after exactly 21 appends of distinct entries the
    1st is absent and the 21st is present. *)
Theorem history_bounded_fifo : forall es,
  (List.length (run_history es) <= 20)%nat /\
  run_history es = skipn (List.length es - 20) es /\
  (forall e1 mid e21, es = e1 :: mid ++ [e21] -> List.length mid = 19%nat ->
     NoDup es -> ~ In e1 (run_history es) /\ In e21 (run_history es)).
Proof.
  intros es. rewrite run_history_window. split; [|split].
  - rewrite length_skipn. lia.
  - reflexivity.
  - intros e1 mid e21 -> Hmid Hnd. cbn [List.length]. rewrite length_app. cbn [List.length].
    replace (S (List.length mid + 1) - 20)%nat with 1%nat by lia. simpl.
    split.
    + apply NoDup_cons_iff in Hnd as [Hn _]. exact Hn.
    + apply in_or_app. right. left. reflexivity.
Qed.

Lemma history_bounded_fifo_witness :
  let es := map (fun k => mk_entry (Z.of_nat k) [] []) (seq 1 21) in
  ~ In (mk_entry 1 [] []) (run_history es) /\ In (mk_entry 21 [] []) (run_history es).
Proof.
  intros es.
  refine (proj2 (proj2 (history_bounded_fifo es)) (mk_entry 1 [] [])
            (map (fun k => mk_entry (Z.of_nat k) [] []) (seq 2 19))
            (mk_entry 21 [] []) eq_refl eq_refl _).
  unfold es. apply NoDup_map_NoDup_ForallPairs; [|apply seq_NoDup].
  intros x y _ _ H. injection H as H. lia.
Defined.

(** ** Broadcast *)

Lemma broadcast_loop_spec : forall ok msg todo living log,
  broadcast_loop ok msg todo living log =
  (living ++ filter ok todo, log ++ map (fun c => (c, msg)) (filter ok todo)).
Proof.
  intros ok msg todo. induction todo as [|ws todo IH]; intros living log; simpl.
  - rewrite !app_nil_r. reflexivity.
  - unfold send_json. destruct (ok ws).
    + rewrite IH, <- !app_assoc. reflexivity.
    + apply IH.
Qed.

Lemma broadcast_spec : forall ok msg w,
  broadcast ok msg w =
  (Ok tt, mkWorld (w_state w) (w_controller w) (filter ok (active w))
                  (sent w ++ map (fun c => (c, msg)) (filter ok (active w)))).
Proof. intros. unfold broadcast. rewrite broadcast_loop_spec. reflexivity. Qed.

(** C4: [broadcast] always returns normally; it sends to the registered
    channels in registration order, keeps exactly those whose send
    succeeded (each of which received the event) and drops those whose
    send failed; with channels [1; 2; 3] where the send to 2 fails, 2 is
    dropped and 1 then 3 receive the event and stay registered. *)
Theorem broadcast_prunes_failed : forall ok ev w,
  let w' := snd (broadcast ok ev w) in
  fst (broadcast ok ev w) = Ok tt /\
  active w' = filter ok (active w) /\
  sent w' = sent w ++ map (fun c => (c, ev)) (filter ok (active w)) /\
  w_state w' = w_state w /\ w_controller w' = w_controller w /\
  (forall c, In c (active w) -> ok c = false -> ~ In c (active w')) /\
  (forall c, In c (active w) -> ok c = true -> In c (active w') /\ In (c, ev) (sent w')) /\
  (let w3 := mkWorld (w_state w) (w_controller w) [1; 2; 3]%nat (sent w) in
   let ok3 := fun c => negb (Nat.eqb c 2) in
   snd (broadcast ok3 ev w3) =
   mkWorld (w_state w) (w_controller w) [1; 3]%nat (sent w ++ [(1%nat, ev); (3%nat, ev)])).
Proof.
  intros ok ev w w'. unfold w'. rewrite !broadcast_spec. cbn [fst snd active sent w_state w_controller].
  repeat split.
  - intros c Hin Hok Hin'. apply filter_In in Hin' as [_ H]. congruence.
  - apply filter_In. split; assumption.
  - apply in_or_app. right. apply in_map_iff. exists c. split; [reflexivity|].
    apply filter_In. split; assumption.
Qed.

(** ** REST operations *)

(** C5: [update_state] sets exactly the fields present in the update,
    keeps every other field (and [bot_reply_pending]) unchanged, and
    broadcasts the resulting full state. *)
Theorem update_state_frame : forall ok u w,
  let s := w_state w in
  let w' := update_state ok u w in
  let s' := w_state w' in
  field_updated (headline s) (headline s') (u_headline u) /\
  field_updated (eve s) (eve s') (u_eve u) /\
  field_updated (battery_pct s) (battery_pct s') (u_battery_pct u) /\
  field_updated (load_w s) (load_w s') (u_load_w u) /\
  field_updated (sun_w s) (sun_w s') (u_sun_w u) /\
  field_updated (load_min_w s) (load_min_w s') (u_load_min_w u) /\
  field_updated (load_max_w s) (load_max_w s') (u_load_max_w u) /\
  field_updated (sun_min_w s) (sun_min_w s') (u_sun_min_w u) /\
  field_updated (sun_max_w s) (sun_max_w s') (u_sun_max_w u) /\
  field_updated (last_user_line s) (last_user_line s') (u_last_user_line u) /\
  bot_reply_pending s' = bot_reply_pending s /\
  w_controller w' = w_controller w /\
  active w' = filter ok (active w) /\
  sent w' = sent w ++ map (fun c => (c, EvState s')) (filter ok (active w)).
Proof.
  intros ok u w s w' s'. unfold s', w', update_state.
  rewrite broadcast_spec. cbn [snd w_state w_controller active sent with_state].
  destruct u as [h e bp lw sw lmin lmax smin smax lul].
  unfold apply_update; cbn.
  repeat split;
    repeat match goal with
    | |- field_updated _ _ ?o => destruct o; reflexivity
    end.
Qed.

(** C7: [bot_reply] sets [bot_reply_pending] to the text, broadcasts a
    [bot_reply] event carrying it, then clears [bot_reply_pending]; no
    other field of the state, and not the controller, is changed. *)
Theorem bot_reply_transient : forall ok t w,
  let w1 := with_state (set_bot_reply_pending (Some t) (w_state w)) w in
  let w' := bot_reply ok t w in
  bot_reply_pending (w_state w1) = Some t /\
  w' = with_state (set_bot_reply_pending None (w_state w1))
                  (snd (broadcast ok (EvBotReply (Some t)) w1)) /\
  w_state w' = set_bot_reply_pending None (w_state w) /\
  bot_reply_pending (w_state w') = None /\
  w_controller w' = w_controller w /\
  active w' = filter ok (active w) /\
  sent w' = sent w ++ map (fun c => (c, EvBotReply (Some t))) (filter ok (active w)).
Proof.
  intros ok t w w1 w'. unfold w', bot_reply. fold w1.
  rewrite !broadcast_spec. unfold w1. cbn.
  repeat split.
Qed.

(** ** Reply generator *)

Lemma days_since_exact : forall k now last,
  k * usec_per_day <= now - last < (k + 1) * usec_per_day ->
  (now - last) / usec_per_day = k.
Proof.
  intros k now last H. symmetry.
  apply Z.div_unique with (r := now - last - k * usec_per_day).
  - left. unfold usec_per_day in *. lia.
  - lia.
Qed.

(** C6 (amended): the maintenance reply, with [days_since] the whole
    days elapsed since [last_maintenance], reports an overdue of
    [days_since - 30] days when [days_since > 30], and otherwise
    [days_since] days elapsed and [30 - days_since] days to the next
    maintenance; 7 days after the last maintenance it is "Last
    maintenance was 7 days ago. Next scheduled maintenance in 23 days."
    and 35 days after it is "System maintenance is overdue by 5 days.
    Recommend scheduling a service check.". *)
Theorem maintenance_reply_days : forall st c now r m,
  let days_since := (now - last_maintenance c) / usec_per_day in
  (30 < days_since ->
   generate_response st c now r m Maintenance =
   Ok (list_ascii_of_string "System maintenance is overdue by " ++
       str_int (days_since - 30) ++
       list_ascii_of_string " days. Recommend scheduling a service check.")) /\
  (days_since <= 30 ->
   generate_response st c now r m Maintenance =
   Ok (list_ascii_of_string "Last maintenance was " ++ str_int days_since ++
       list_ascii_of_string " days ago. Next scheduled maintenance in " ++
       str_int (30 - days_since) ++ list_ascii_of_string " days.")) /\
  (7 * usec_per_day <= now - last_maintenance c < 8 * usec_per_day ->
   generate_response st c now r m Maintenance =
   Ok (list_ascii_of_string
         "Last maintenance was 7 days ago. Next scheduled maintenance in 23 days.")) /\
  (35 * usec_per_day <= now - last_maintenance c < 36 * usec_per_day ->
   generate_response st c now r m Maintenance =
   Ok (list_ascii_of_string
         "System maintenance is overdue by 5 days. Recommend scheduling a service check.")).
Proof.
  intros st c now r m days_since. cbn [generate_response]. unfold maintenance_reply.
  fold days_since. split; [|split; [|split]].
  - intros H. apply Z.ltb_lt in H. rewrite H. reflexivity.
  - intros H. apply Z.ltb_ge in H. rewrite H. reflexivity.
  - intros H. unfold days_since. rewrite (days_since_exact 7) by exact H.
    vm_compute. reflexivity.
  - intros H. unfold days_since. rewrite (days_since_exact 35) by exact H.
    vm_compute. reflexivity.
Qed.

Lemma maintenance_reply_days_witness :
  generate_response STATE0 (init_controller 0) 0 0 [] Maintenance =
  Ok (list_ascii_of_string
        "Last maintenance was 7 days ago. Next scheduled maintenance in 23 days.") /\
  generate_response STATE0 (mkController [] (-35 * usec_per_day)) 0 0 [] Maintenance =
  Ok (list_ascii_of_string
        "System maintenance is overdue by 5 days. Recommend scheduling a service check.").
Proof.
  split.
  - apply (proj1 (proj2 (proj2 (maintenance_reply_days STATE0 (init_controller 0) 0 0 [])))).
    cbn [init_controller last_maintenance]. unfold usec_per_day. lia.
  - apply (proj2 (proj2 (proj2
      (maintenance_reply_days STATE0 (mkController [] (-35 * usec_per_day)) 0 0 [])))).
    cbn [last_maintenance]. unfold usec_per_day. lia.
Defined.

(** C6 counterexample: 7 days after the last maintenance the reply is
    not the text "last maintenance was 7 days ago, next in 23 days", and
    35 days after it is not "overdue by 5 days". *)
Lemma maintenance_reply_wording :
  generate_response STATE0 (init_controller 0) 0 0 [] Maintenance <>
    Ok (list_ascii_of_string "last maintenance was 7 days ago, next in 23 days") /\
  generate_response STATE0 (mkController [] (-35 * usec_per_day)) 0 0 [] Maintenance <>
    Ok (list_ascii_of_string "overdue by 5 days").
Proof. split; vm_compute; discriminate. Qed.

Lemma can_generate_ok : forall st c now r m i,
  can_generate st i = true -> exists reply, generate_response st c now r m i = Ok reply.
Proof.
  intros st c now r m i H.
  destruct i; cbn [generate_response]; try (eexists; reflexivity).
  - cbn [can_generate] in H. apply andb_true_iff in H as [H Hb].
    apply andb_true_iff in H as [Hl Hs].
    destruct (load_w st) as [[q1| | |]|], (sun_w st) as [[q2| | |]|],
      (battery_pct st) as [[q3| | |]|]; try discriminate.
    eexists. reflexivity.
  - cbn [can_generate] in H. destruct (battery_pct st) as [[q| | |]|]; try discriminate.
    eexists. reflexivity.
Qed.

Lemma cannot_generate_err : forall st c now r m i,
  can_generate st i = false -> exists e, generate_response st c now r m i = Err e.
Proof.
  intros st c now r m i H.
  destruct i; cbn [can_generate] in H; try discriminate; cbn [generate_response].
  - destruct (load_w st) as [[q1| | |]|], (sun_w st) as [[q2| | |]|],
      (battery_pct st) as [[q3| | |]|]; try discriminate; eexists; reflexivity.
  - destruct (battery_pct st) as [[q| | |]|]; try discriminate; eexists; reflexivity.
Qed.

Lemma generate_set_last_user_line : forall v st c now r m i,
  generate_response (set_last_user_line v st) c now r m i = generate_response st c now r m i.
Proof. intros. destruct i; reflexivity. Qed.

(** ** Direct message processing *)

(** C10 (amended): when reply generation returns normally (the readings
    a [power] or [battery] reply formats are finite numbers),
    [process_message] returns the reply and appends exactly one entry
    (message, reply, timestamp) at the end of the log, the oldest entry
    being evicted when the log already held 20; [process_message_directly]
    does the same to the controller and leaves the registry and the
    deliveries alone.  When generation raises (such a reading is [inf]
    or [nan], or [None]), the exception propagates and nothing is
    appended. *)
Theorem process_message_appends : forall st c t_gen t_add r m,
  let i := a_intent (analyze_message m) in
  let h := conversation_history c in
  (can_generate st i = true ->
   exists reply,
     generate_response st c t_gen r m i = Ok reply /\
     fst (process_message st c t_gen t_add r m) = Ok reply /\
     last_maintenance (snd (process_message st c t_gen t_add r m)) = last_maintenance c /\
     (exists pre, conversation_history (snd (process_message st c t_gen t_add r m)) =
                  pre ++ [mk_entry t_add m reply] /\ (pre = h \/ pre = tl h)) /\
     ((List.length h < 20)%nat ->
      conversation_history (snd (process_message st c t_gen t_add r m)) =
      h ++ [mk_entry t_add m reply]) /\
     (List.length h = 20%nat ->
      conversation_history (snd (process_message st c t_gen t_add r m)) =
      tl h ++ [mk_entry t_add m reply])) /\
  (can_generate st i = false ->
   exists e,
     generate_response st c t_gen r m i = Err e /\
     process_message st c t_gen t_add r m = (Err e, c)) /\
  (forall w, w_state w = st -> w_controller w = c ->
   let w' := snd (process_message_directly t_gen t_add r m w) in
   w_controller w' = snd (process_message st c t_gen t_add r m) /\
   active w' = active w /\ sent w' = sent w).
Proof.
  intros st c t_gen t_add r m i h. split; [|split].
  - intros Hc. destruct (can_generate_ok st c t_gen r m i Hc) as [reply Hr].
    exists reply. unfold process_message. fold i. rewrite Hr. cbn [fst snd].
    cbn [conversation_history last_maintenance]. fold h.
    unfold add_to_history. rewrite length_app. cbn [List.length].
    split; [reflexivity|]. split; [reflexivity|]. split; [reflexivity|].
    split; [|split].
    + destruct (Nat.ltb_spec 20 (List.length h + 1)) as [Hlt|_].
      * destruct h as [|x h']; [cbn in Hlt; lia|].
        exists h'. split; [reflexivity|]. right. reflexivity.
      * exists h. split; [reflexivity|]. left. reflexivity.
    + intros Hl. destruct (Nat.ltb_spec 20 (List.length h + 1)); [lia|reflexivity].
    + intros Hl. destruct (Nat.ltb_spec 20 (List.length h + 1)); [|lia].
      destruct h as [|x h']; [discriminate|]. reflexivity.
  - intros Hc. destruct (cannot_generate_err st c t_gen r m i Hc) as [e He].
    exists e. split; [exact He|]. unfold process_message. fold i. rewrite He. reflexivity.
  - intros w Hs Hw w'. unfold w', process_message_directly. rewrite Hs, Hw.
    destruct (process_message st c t_gen t_add r m) as [[reply|e] c'];
      repeat split.
Qed.

Lemma process_message_appends_witness :
  exists reply,
    generate_response STATE0 (init_controller 0) 0 0 (list_ascii_of_string "hello")
      (a_intent (analyze_message (list_ascii_of_string "hello"))) = Ok reply /\
    fst (process_message STATE0 (init_controller 0) 0 1 0 (list_ascii_of_string "hello"))
      = Ok reply.
Proof.
  destruct (proj1 (process_message_appends STATE0 (init_controller 0) 0 1 0
                     (list_ascii_of_string "hello")) eq_refl)
    as [reply [H1 [H2 _]]].
  exists reply. split; assumption.
Defined.

(** C10 counterexample: after [PUT /api/state] with [{"load_w": 1e400}]
    (an infinite load, accepted as-is), processing "power" raises
    [OverflowError] in [int(STATE.load_w)] and appends no entry. *)
Lemma process_message_inf_load :
  let st := apply_update inf_load_update STATE0 in
  process_message st (init_controller 0) 0 0 0 (list_ascii_of_string "power") =
    (Err OverflowError, init_controller 0) /\
  conversation_history
    (snd (process_message st (init_controller 0) 0 0 0 (list_ascii_of_string "power"))) = [].
Proof. split; reflexivity. Qed.

(** ** The user_message handler *)

Lemma chan_log_app : forall c l1 l2,
  chan_log c (l1 ++ l2) = chan_log c l1 ++ chan_log c l2.
Proof. intros. unfold chan_log. rewrite filter_app, map_app. reflexivity. Qed.

Lemma chan_log_absent : forall c ev l,
  ~ In c l -> chan_log c (map (fun x => (x, ev)) l) = [].
Proof.
  intros c ev l. induction l as [|x l IH]; intros Hn; [reflexivity|].
  unfold chan_log in *. cbn [map filter fst].
  destruct (Nat.eqb_spec x c) as [->|Hxc].
  - exfalso. apply Hn. left. reflexivity.
  - apply IH. intros H. apply Hn. right. exact H.
Qed.

Lemma chan_log_once : forall c ev l,
  NoDup l -> In c l -> chan_log c (map (fun x => (x, ev)) l) = [ev].
Proof.
  intros c ev l. induction l as [|x l IH]; intros Hnd Hin; [destruct Hin|].
  apply NoDup_cons_iff in Hnd as [Hx Hnd].
  unfold chan_log in *. cbn [map filter fst].
  destruct (Nat.eqb_spec x c) as [->|Hxc].
  - cbn [map snd]. f_equal. apply (chan_log_absent c ev l Hx).
  - destruct Hin as [Hin|Hin]; [congruence|]. apply IH; assumption.
Qed.

Lemma remove_first_absent : forall ws l, ~ In ws l -> remove_first ws l = l.
Proof.
  intros ws l. induction l as [|x l IH]; intros Hn; [reflexivity|]. simpl.
  destruct (Nat.eqb_spec x ws) as [->|_].
  - exfalso. apply Hn. left. reflexivity.
  - f_equal. apply IH. intros H. apply Hn. right. exact H.
Qed.

Lemma remove_first_nodup : forall ws l,
  NoDup l -> remove_first ws l = filter (fun x => negb (Nat.eqb x ws)) l.
Proof.
  intros ws l. induction l as [|x l IH]; intros Hnd; [reflexivity|].
  apply NoDup_cons_iff in Hnd as [Hx Hnd]. simpl.
  destruct (Nat.eqb_spec x ws) as [->|_]; cbn [negb].
  - symmetry. rewrite <- (remove_first_absent ws l Hx) at 2.
    rewrite IH by exact Hnd. apply filter_ext_in.
    intros y Hy. destruct (Nat.eqb_spec y ws); [subst; contradiction|reflexivity].
  - f_equal. apply IH. exact Hnd.
Qed.

Lemma disconnect_nodup_absent : forall ws w,
  NoDup (active w) -> ~ In ws (active (disconnect ws w)).
Proof.
  intros ws w Hnd. unfold disconnect. cbn [active].
  destruct (existsb (Nat.eqb ws) (active w)) eqn:E.
  - rewrite remove_first_nodup by exact Hnd. intros Hin.
    apply filter_In in Hin as [_ H]. rewrite Nat.eqb_refl in H. discriminate.
  - intros Hin. assert (existsb (Nat.eqb ws) (active w) = true)
      by (apply existsb_exists; exists ws; split; [exact Hin|apply Nat.eqb_refl]).
    congruence.
Qed.

Lemma disconnect_nodup : forall ws w, NoDup (active w) -> NoDup (active (disconnect ws w)).
Proof.
  intros ws w Hnd. unfold disconnect. cbn [active].
  destruct (existsb (Nat.eqb ws) (active w)); [|exact Hnd].
  rewrite remove_first_nodup by exact Hnd. apply NoDup_filter, Hnd.
Qed.

(** C8 (amended): for a [user_message] frame whose text [s] trims to a
    non-empty [u], when reply generation returns normally (the readings
    a [power] or [battery] reply formats are finite numbers), the
    handler issues exactly three broadcasts, [user_line u],
    [clear_center], then (after the delay, during which other tasks may
    only register or drop channels and deliver further events)
    [bot_reply] with the generated reply, and the loop goes on; a
    channel registered at the start, whose three sends succeed and which
    is still registered at the end, receives the three events in this
    order.  When generation raises (such a reading is [inf] or [nan], or
    [None]), only [user_line u] and [clear_center] are broadcast, the
    log is unchanged, and the sender is deregistered and its loop
    ends. *)
Theorem user_message_three_broadcasts :
  forall ok1 ok2 ok3 sleep t_gen t_add r ws s w,
  (forall v, exists l, sent (sleep v) = sent v ++ l) ->
  (forall v, NoDup (active v) -> NoDup (active (sleep v))) ->
  NoDup (active w) ->
  let u := strip s in
  u <> [] ->
  let i := a_intent (analyze_message u) in
  let res := handle_message ok1 ok2 ok3 sleep t_gen t_add r ws
               (InObject TUserMessage (TStr s)) w in
  (can_generate (w_state w) i = true ->
   exists reply,
     generate_response (w_state w) (w_controller w) t_gen r u i = Ok reply /\
     o_calls res = [EvUserLine (Some u); EvClearCenter; EvBotReply (Some reply)] /\
     o_alive res = true /\
     (forall c, In c (active w) -> ok1 c = true -> ok2 c = true -> ok3 c = true ->
        In c (active (o_world res)) ->
        exists mid, chan_log c (sent (o_world res)) =
          chan_log c (sent w) ++ [EvUserLine (Some u); EvClearCenter] ++ mid ++
          [EvBotReply (Some reply)])) /\
  (can_generate (w_state w) i = false ->
   exists e,
     generate_response (w_state w) (w_controller w) t_gen r u i = Err e /\
     o_calls res = [EvUserLine (Some u); EvClearCenter] /\
     o_alive res = false /\
     ~ In ws (active (o_world res)) /\
     conversation_history (w_controller (o_world res)) =
       conversation_history (w_controller w)).
Proof.
  intros ok1 ok2 ok3 sleep t_gen t_add r ws s w Hsent Hnd Hnd0 u Hu i res.
  unfold res, i. clear res i. cbn [handle_message]. unfold handle_user_message.
  cbv beta iota zeta. fold u.
  split; intros Hcan.
  - destruct (can_generate_ok _ (w_controller w) t_gen r u _ Hcan) as [reply Hr].
    exists reply. split; [exact Hr|].
    clearbody u. destruct u as [|x u']; [congruence|].
    unfold bcast. rewrite !broadcast_spec.
    cbn [fst snd w_state w_controller active sent with_state].
    unfold process_message. cbn [w_state w_controller with_state].
    rewrite generate_set_last_user_line, Hr.
    rewrite broadcast_spec. cbn [fst snd active sent o_world o_calls o_alive].
    split; [reflexivity|]. split; [reflexivity|].
    intros c Hin H1 H2 H3 Hfin.
    match goal with |- context [sent (sleep ?v)] =>
      destruct (Hsent v) as [l Hl]; set (w4 := sleep v) in *
    end.
    exists (chan_log c l).
    rewrite Hl. cbn [sent with_controller] in *.
    apply filter_In in Hfin as [Hin4 _].
    assert (Hnd4 : NoDup (active w4)).
    { unfold w4. apply Hnd. cbn [active with_controller].
      apply NoDup_filter, NoDup_filter, Hnd0. }
    rewrite !chan_log_app.
    rewrite (chan_log_once c _ (filter ok1 (active w))) by
      (try apply NoDup_filter; try apply filter_In; auto).
    rewrite (chan_log_once c _ (filter ok2 (filter ok1 (active w)))) by
      (try (apply NoDup_filter; apply NoDup_filter; exact Hnd0);
       repeat (apply filter_In; split); auto; apply filter_In; auto).
    rewrite (chan_log_once c _ (filter ok3 (active w4))) by
      (try apply NoDup_filter; try apply filter_In; auto).
    rewrite <- !app_assoc. reflexivity.
  - destruct (cannot_generate_err _ (w_controller w) t_gen r u _ Hcan) as [e He].
    exists e. split; [exact He|].
    clearbody u. destruct u as [|x u']; [congruence|].
    unfold bcast. rewrite !broadcast_spec.
    cbn [fst snd w_state w_controller active sent with_state].
    unfold process_message. cbn [w_state w_controller with_state].
    rewrite generate_set_last_user_line, He. cbn [fst snd o_world o_calls o_alive].
    split; [reflexivity|]. split; [reflexivity|]. split; [|reflexivity].
    apply disconnect_nodup_absent. cbn [active with_controller].
    apply NoDup_filter, NoDup_filter, Hnd0.
Qed.

Lemma user_message_three_broadcasts_witness :
  exists reply,
    o_calls (handle_message (fun _ => true) (fun _ => true) (fun _ => true) (fun v => v)
               0 0 0 1%nat (InObject TUserMessage (TStr (list_ascii_of_string "hello")))
               (mkWorld STATE0 (init_controller 0) [1; 2]%nat [])) =
    [EvUserLine (Some (list_ascii_of_string "hello")); EvClearCenter;
     EvBotReply (Some reply)].
Proof.
  assert (Hs : forall v : World, exists l, sent v = sent v ++ l)
    by (intros v; exists []; rewrite app_nil_r; reflexivity).
  assert (Hn : forall v : World, NoDup (active v) -> NoDup (active v))
    by (intros v Hv; exact Hv).
  assert (H0 : NoDup (active (mkWorld STATE0 (init_controller 0) [1; 2]%nat [])))
    by (cbn [active]; constructor; [simpl; intuition discriminate|];
        constructor; [simpl; tauto|constructor]).
  assert (Hu : strip (list_ascii_of_string "hello") <> []) by discriminate.
  destruct (proj1 (user_message_three_broadcasts (fun _ => true) (fun _ => true)
              (fun _ => true) (fun v => v) 0 0 0 1%nat (list_ascii_of_string "hello")
              (mkWorld STATE0 (init_controller 0) [1; 2]%nat []) Hs Hn H0 Hu) eq_refl)
    as [reply [_ [H _]]].
  exists reply. exact H.
Defined.

(** C8 counterexample: after [PUT /api/state] with [{"load_w": 1e400}]
    (an infinite load, accepted as-is), the message "power" gives only
    two broadcasts ([user_line] and [clear_center]); [int(STATE.load_w)]
    raises [OverflowError], the sender is disconnected and no
    [bot_reply] follows. *)
Lemma user_message_inf_load_two_broadcasts :
  let w0 := update_state (fun _ => true) inf_load_update
              (mkWorld STATE0 (init_controller 0) [1%nat] []) in
  let res := handle_message (fun _ => true) (fun _ => true) (fun _ => true)
               (fun v => v) 0 0 0 1%nat
               (InObject TUserMessage (TStr (list_ascii_of_string "power"))) w0 in
  o_calls res = [EvUserLine (Some (list_ascii_of_string "power")); EvClearCenter] /\
  o_alive res = false /\ active (o_world res) = [].
Proof. split; [reflexivity|split; reflexivity]. Qed.

(** ** Further properties of the registry and the endpoint *)

Lemma handle_user_message_inv : forall ok1 ok2 ok3 sleep t_gen t_add r ws text w,
  (forall v, NoDup (active v) -> NoDup (active (sleep v))) ->
  (forall v, exists l, sent (sleep v) = sent v ++ l) ->
  NoDup (active w) ->
  let o := handle_user_message ok1 ok2 ok3 sleep t_gen t_add r ws text w in
  NoDup (active (o_world o)) /\ (exists l, sent (o_world o) = sent w ++ l) /\
  (o_alive o = false -> ~ In ws (active (o_world o))).
Proof.
  intros ok1 ok2 ok3 sleep t_gen t_add r ws text w Hnd Hsent Hnd0 o.
  unfold o, handle_user_message. clear o. cbv zeta.
  destruct (strip _) as [|x u].
  - cbn [o_world o_alive]. split; [exact Hnd0|].
    split; [exists []; rewrite app_nil_r; reflexivity|discriminate].
  - unfold bcast. rewrite !broadcast_spec.
    cbn [fst snd w_state w_controller active sent with_state].
    destruct (process_message _ _ _ _ _ _) as [[reply|e] c'].
    + rewrite broadcast_spec. cbn [fst snd active sent o_world o_alive].
      match goal with |- context [sleep ?v] =>
        destruct (Hsent v) as [l Hl]; pose proof (Hnd v) as Hv end.
      split; [apply NoDup_filter, Hv; cbn [active with_controller];
              apply NoDup_filter, NoDup_filter, Hnd0|].
      split; [|discriminate].
      rewrite Hl. cbn [sent with_controller]. rewrite <- !app_assoc.
      eexists. reflexivity.
    + cbn [o_world o_alive]. split; [|split].
      * apply disconnect_nodup. cbn [active with_controller].
        apply NoDup_filter, NoDup_filter, Hnd0.
      * cbn [disconnect sent with_controller]. rewrite <- app_assoc.
        eexists. reflexivity.
      * intros _. apply disconnect_nodup_absent. cbn [active with_controller].
        apply NoDup_filter, NoDup_filter, Hnd0.
Qed.

Lemma handle_message_inv : forall ok1 ok2 ok3 sleep t_gen t_add r ws m w,
  (forall v, NoDup (active v) -> NoDup (active (sleep v))) ->
  (forall v, exists l, sent (sleep v) = sent v ++ l) ->
  NoDup (active w) ->
  let o := handle_message ok1 ok2 ok3 sleep t_gen t_add r ws m w in
  NoDup (active (o_world o)) /\ (exists l, sent (o_world o) = sent w ++ l) /\
  (o_alive o = false -> ~ In ws (active (o_world o))).
Proof.
  intros ok1 ok2 ok3 sleep t_gen t_add r ws m w Hnd Hsent Hnd0 o. unfold o. clear o.
  assert (Hdis : NoDup (active (disconnect ws w)) /\
                 (exists l, sent (disconnect ws w) = sent w ++ l) /\
                 (false = false -> ~ In ws (active (disconnect ws w)))).
  { split; [apply disconnect_nodup, Hnd0|]. split.
    - exists []. rewrite app_nil_r. reflexivity.
    - intros _. apply disconnect_nodup_absent, Hnd0. }
  assert (Hsame : NoDup (active w) /\ (exists l, sent w = sent w ++ l) /\
                  (true = false -> ~ In ws (active w))).
  { split; [exact Hnd0|]. split; [exists []; rewrite app_nil_r; reflexivity|discriminate]. }
  destruct m as [[| |] [s| |]|]; cbn [handle_message o_world o_alive];
    try (apply handle_user_message_inv; assumption); try exact Hdis; try exact Hsame.
  all: unfold send_state, send_json; destruct (ok1 ws);
    cbn [o_world o_alive active sent]; [|exact Hdis].
  all: split; [exact Hnd0|]; split; [eexists; reflexivity|discriminate].
Qed.

Lemma serve_inv : forall ws frames w,
  (forall e m, In (e, m) frames -> well_behaved e) ->
  NoDup (active w) ->
  NoDup (active (fst (serve ws frames w))) /\ ~ In ws (active (fst (serve ws frames w))) /\
  exists l, sent (fst (serve ws frames w)) = sent w ++ l.
Proof.
  intros ws frames. induction frames as [|[e m] rest IH]; intros w Henv Hnd.
  - cbn [serve fst]. split; [apply disconnect_nodup, Hnd|].
    split; [apply disconnect_nodup_absent, Hnd|].
    exists []. rewrite app_nil_r. reflexivity.
  - destruct (Henv e m (or_introl eq_refl)) as [Hw [Hs [Hws Hss]]].
    destruct (Hws w) as [l0 Hl0].
    pose proof (handle_message_inv (e_ok1 e) (e_ok2 e) (e_ok3 e) (e_sleep e) (e_t_gen e)
                  (e_t_add e) (e_r e) ws m (e_wait e w) Hs Hss (Hw w Hnd)) as Hinv.
    cbn [serve]. cbv zeta in Hinv.
    set (o := handle_message (e_ok1 e) (e_ok2 e) (e_ok3 e) (e_sleep e) (e_t_gen e)
                (e_t_add e) (e_r e) ws m (e_wait e w)) in *.
    destruct Hinv as [Hnd1 [[l1 Hl1] Hdead]].
    destruct (o_alive o) eqn:Ea; cbn [fst].
    + destruct (IH (o_world o) (fun e' m' H => Henv e' m' (or_intror H)) Hnd1)
        as [A [B [l2 C]]].
      split; [exact A|]. split; [exact B|].
      rewrite C, Hl1, Hl0, <- !app_assoc. eexists. reflexivity.
    + split; [exact Hnd1|]. split; [apply Hdead; reflexivity|].
      rewrite Hl1, Hl0, <- app_assoc. eexists. reflexivity.
Qed.

(** A session of [websocket_endpoint] on [ws]: the channel is registered
    first.  When the catch-up state send of [connect] fails, the
    exception leaves the endpoint before its [try]: no frame is read,
    nothing is broadcast, and the channel stays registered.  Otherwise
    the channel's first delivery is the state at connection time, and
    however the session ends (the client leaves, or a fault in the
    loop) the channel is no longer registered at its end. *)
Theorem websocket_session_deregisters : forall ok ws frames w,
  (forall e m, In (e, m) frames -> well_behaved e) ->
  NoDup (active w) -> ~ In ws (active w) ->
  let res := websocket_endpoint ok ws frames w in
  (ok ws = false ->
   ses_result res = Err RuntimeError /\ ses_calls res = [] /\
   ses_world res = mkWorld (w_state w) (w_controller w) (active w ++ [ws]) (sent w)) /\
  (ok ws = true ->
   ses_result res = Ok tt /\ ~ In ws (active (ses_world res)) /\
   NoDup (active (ses_world res)) /\
   exists rest, chan_log ws (sent (ses_world res)) =
                chan_log ws (sent w) ++ EvState (w_state w) :: rest).
Proof.
  intros ok ws frames w Henv Hnd Hws res.
  unfold res, websocket_endpoint, connect, send_state, send_json. clear res.
  cbn [active sent w_state w_controller].
  split; intros Hok; rewrite Hok; cbn [ses_result ses_calls ses_world].
  - split; [reflexivity|split; reflexivity].
  - assert (Hnd1 : NoDup (active w ++ [ws])).
    { apply (Permutation_NoDup (Permutation_app_comm [ws] (active w))).
      cbn [app]. constructor; assumption. }
    destruct (serve_inv ws frames (mkWorld (w_state w) (w_controller w) (active w ++ [ws])
                (sent w ++ [(ws, EvState (w_state w))])) Henv Hnd1) as [A [B [l C]]].
    split; [reflexivity|]. split; [exact B|]. split; [exact A|].
    assert (Hone : chan_log ws [(ws, EvState (w_state w))] = [EvState (w_state w)]).
    { unfold chan_log. cbn [filter fst]. rewrite Nat.eqb_refl. reflexivity. }
    exists (chan_log ws l). rewrite C. cbn [sent]. rewrite !chan_log_app, Hone.
    rewrite <- app_assoc. reflexivity.
Qed.

Lemma websocket_session_deregisters_witness :
  ~ In 1%nat (active (ses_world (websocket_endpoint (fun _ => true) 1%nat
      [(mk_env (fun v => v) (fun _ => true) (fun _ => true) (fun _ => true) (fun v => v)
          0 0 0, InObject TUserMessage (TStr (list_ascii_of_string "hello")))]
      (mkWorld STATE0 (init_controller 0) [2%nat] [])))).
Proof.
  assert (Henv : forall e m,
    In (e, m) [(mk_env (fun v => v) (fun _ => true) (fun _ => true) (fun _ => true)
                  (fun v => v) 0 0 0, InObject TUserMessage (TStr (list_ascii_of_string "hello")))] ->
    well_behaved e).
  { intros e m [H|[]]. injection H as He Hm. subst e. unfold well_behaved.
    cbn [e_wait e_sleep].
    split; [intros v Hv; exact Hv|]. split; [intros v Hv; exact Hv|].
    split; intros v; exists []; rewrite app_nil_r; reflexivity. }
  assert (Hnd : NoDup (active (mkWorld STATE0 (init_controller 0) [2%nat] [])))
    by (cbn [active]; constructor; [simpl; tauto|constructor]).
  assert (Hws : ~ In 1%nat (active (mkWorld STATE0 (init_controller 0) [2%nat] [])))
    by (cbn [active]; simpl; intuition discriminate).
  exact (proj1 (proj2 (proj2 (websocket_session_deregisters (fun _ => true) 1%nat _
           (mkWorld STATE0 (init_controller 0) [2%nat] []) Henv Hnd Hws) eq_refl))).
Defined.

(** Only a [user_message] object whose text is a non-blank string makes
    broadcasts.  Any other frame leaves the state and the controller
    alone; the loop stops exactly on a frame that is not an object, a
    [user_message] whose text is a truthy non-string (both raise
    [AttributeError]), or a [request_state] whose send fails, and then
    the sender is deregistered and nothing is delivered; otherwise the
    registry is unchanged and at most the current state is delivered to
    the sender ([request_state]). *)
Theorem other_messages_no_broadcast :
  forall ok1 ok2 ok3 sleep t_gen t_add r ws m w,
  nonblank_user_message m = false ->
  NoDup (active w) ->
  let o := handle_message ok1 ok2 ok3 sleep t_gen t_add r ws m w in
  o_calls o = [] /\ w_state (o_world o) = w_state w /\
  w_controller (o_world o) = w_controller w /\
  (o_alive o = false <->
     m = InOther \/ m = InObject TUserMessage TNonStr \/
     ((exists t, m = InObject TRequestState t) /\ ok1 ws = false)) /\
  (o_alive o = true ->
     active (o_world o) = active w /\
     (sent (o_world o) = sent w \/
      ((exists t, m = InObject TRequestState t) /\
       sent (o_world o) = sent w ++ [(ws, EvState (w_state w))]))) /\
  (o_alive o = false ->
     ~ In ws (active (o_world o)) /\ sent (o_world o) = sent w).
Proof.
  intros ok1 ok2 ok3 sleep t_gen t_add r ws m w Hm Hnd0 o. unfold o. clear o.
  assert (Hdis : ~ In ws (active (disconnect ws w))) by (apply disconnect_nodup_absent, Hnd0).
  destruct m as [[| |] [s| |]|]; cbn [nonblank_user_message] in Hm.
  - destruct (strip s) eqn:E; [|discriminate].
    cbn [handle_message]. unfold handle_user_message. cbv beta iota zeta.
    rewrite E. cbn [o_world o_calls o_alive].
    do 3 (split; [reflexivity|]). split.
    + split; [discriminate|]. intros [H|[H|[[t H] _]]]; discriminate H.
    + split; [intros _; split; [reflexivity|left; reflexivity]|discriminate].
  - cbn [handle_message]. unfold handle_user_message. cbv beta iota zeta.
    replace (strip []) with (@nil ascii) by reflexivity. cbn [o_world o_calls o_alive].
    do 3 (split; [reflexivity|]). split.
    + split; [discriminate|]. intros [H|[H|[[t H] _]]]; discriminate H.
    + split; [intros _; split; [reflexivity|left; reflexivity]|discriminate].
  - cbn [handle_message o_world o_calls o_alive].
    do 3 (split; [reflexivity|]). split.
    + split; [intros _; right; left; reflexivity|reflexivity].
    + split; [discriminate|]. intros _. split; [exact Hdis|reflexivity].
  - cbn [handle_message]. unfold send_state, send_json.
    destruct (ok1 ws) eqn:Hok; cbn [o_world o_calls o_alive w_state w_controller active sent].
    + do 3 (split; [reflexivity|]). split.
      * split; [discriminate|]. intros [H|[H|[_ H]]]; [discriminate H|discriminate H|congruence].
      * split; [|discriminate]. intros _. split; [reflexivity|].
        right. split; [eexists; reflexivity|reflexivity].
    + do 3 (split; [reflexivity|]). split.
      * split; [intros _; right; right; split; [eexists; reflexivity|reflexivity]|reflexivity].
      * split; [discriminate|]. intros _. split; [exact Hdis|reflexivity].
  - cbn [handle_message]. unfold send_state, send_json.
    destruct (ok1 ws) eqn:Hok; cbn [o_world o_calls o_alive w_state w_controller active sent].
    + do 3 (split; [reflexivity|]). split.
      * split; [discriminate|]. intros [H|[H|[_ H]]]; [discriminate H|discriminate H|congruence].
      * split; [|discriminate]. intros _. split; [reflexivity|].
        right. split; [eexists; reflexivity|reflexivity].
    + do 3 (split; [reflexivity|]). split.
      * split; [intros _; right; right; split; [eexists; reflexivity|reflexivity]|reflexivity].
      * split; [discriminate|]. intros _. split; [exact Hdis|reflexivity].
  - cbn [handle_message]. unfold send_state, send_json.
    destruct (ok1 ws) eqn:Hok; cbn [o_world o_calls o_alive w_state w_controller active sent].
    + do 3 (split; [reflexivity|]). split.
      * split; [discriminate|]. intros [H|[H|[_ H]]]; [discriminate H|discriminate H|congruence].
      * split; [|discriminate]. intros _. split; [reflexivity|].
        right. split; [eexists; reflexivity|reflexivity].
    + do 3 (split; [reflexivity|]). split.
      * split; [intros _; right; right; split; [eexists; reflexivity|reflexivity]|reflexivity].
      * split; [discriminate|]. intros _. split; [exact Hdis|reflexivity].
  - cbn [handle_message o_world o_calls o_alive].
    do 3 (split; [reflexivity|]). split.
    + split; [discriminate|]. intros [H|[H|[[t H] _]]]; discriminate H.
    + split; [intros _; split; [reflexivity|left; reflexivity]|discriminate].
  - cbn [handle_message o_world o_calls o_alive].
    do 3 (split; [reflexivity|]). split.
    + split; [discriminate|]. intros [H|[H|[[t H] _]]]; discriminate H.
    + split; [intros _; split; [reflexivity|left; reflexivity]|discriminate].
  - cbn [handle_message o_world o_calls o_alive].
    do 3 (split; [reflexivity|]). split.
    + split; [discriminate|]. intros [H|[H|[[t H] _]]]; discriminate H.
    + split; [intros _; split; [reflexivity|left; reflexivity]|discriminate].
  - cbn [handle_message o_world o_calls o_alive].
    do 3 (split; [reflexivity|]). split.
    + split; [intros _; left; reflexivity|reflexivity].
    + split; [discriminate|]. intros _. split; [exact Hdis|reflexivity].
Qed.

Lemma other_messages_no_broadcast_witness :
  o_calls (handle_message (fun _ => true) (fun _ => true) (fun _ => true) (fun v => v) 0 0 0
             1%nat InOther (mkWorld STATE0 (init_controller 0) [1%nat] [])) = [] /\
  ~ In 1%nat (active (o_world (handle_message (fun _ => true) (fun _ => true) (fun _ => true)
             (fun v => v) 0 0 0 1%nat InOther
             (mkWorld STATE0 (init_controller 0) [1%nat] [])))).
Proof.
  assert (Hnd : NoDup (active (mkWorld STATE0 (init_controller 0) [1%nat] [])))
    by (cbn [active]; constructor; [simpl; tauto|constructor]).
  destruct (other_messages_no_broadcast (fun _ => true) (fun _ => true) (fun _ => true)
              (fun v => v) 0 0 0 1%nat InOther
              (mkWorld STATE0 (init_controller 0) [1%nat] []) eq_refl Hnd)
    as [H1 [_ [_ [Hiff [_ H6]]]]].
  split; [exact H1|].
  exact (proj1 (H6 (proj2 Hiff (or_introl eq_refl)))).
Defined.

(** [disconnect] is a no-op on a channel that is not registered; on a
    registry without duplicates it removes the channel and keeps the
    others in order, so a second [disconnect] changes nothing. *)
Theorem disconnect_idempotent : forall ws w,
  (~ In ws (active w) -> disconnect ws w = w) /\
  (NoDup (active w) ->
   active (disconnect ws w) = filter (fun x => negb (Nat.eqb x ws)) (active w) /\
   ~ In ws (active (disconnect ws w)) /\
   disconnect ws (disconnect ws w) = disconnect ws w).
Proof.
  intros ws w.
  assert (Habs : forall v, ~ In ws (active v) -> disconnect ws v = v).
  { intros [s c a l] Hn. unfold disconnect. cbn [active w_state w_controller sent] in *.
    destruct (existsb (Nat.eqb ws) a) eqn:E; [|reflexivity].
    apply existsb_exists in E as [x [Hx E]]. apply Nat.eqb_eq in E. subst. contradiction. }
  split; [apply Habs|]. intros Hnd.
  assert (Ha : active (disconnect ws w) = filter (fun x => negb (Nat.eqb x ws)) (active w)).
  { unfold disconnect. cbn [active].
    destruct (existsb (Nat.eqb ws) (active w)) eqn:E.
    - apply remove_first_nodup. exact Hnd.
    - symmetry. apply forallb_filter_id. apply forallb_forall. intros x Hx.
      destruct (Nat.eqb_spec x ws) as [->|]; [|reflexivity].
      assert (existsb (Nat.eqb ws) (active w) = true)
        by (apply existsb_exists; exists ws; split; [exact Hx|apply Nat.eqb_refl]).
      congruence. }
  assert (Hn : ~ In ws (active (disconnect ws w))).
  { rewrite Ha. intros Hin. apply filter_In in Hin as [_ H].
    rewrite Nat.eqb_refl in H. discriminate. }
  split; [exact Ha|]. split; [exact Hn|]. apply Habs. exact Hn.
Qed.

Lemma disconnect_idempotent_witness :
  disconnect 1%nat (disconnect 1%nat (mkWorld STATE0 (init_controller 0) [1; 2]%nat [])) =
  disconnect 1%nat (mkWorld STATE0 (init_controller 0) [1; 2]%nat []).
Proof.
  apply (proj2 (disconnect_idempotent 1%nat (mkWorld STATE0 (init_controller 0) [1; 2]%nat []))).
  cbn [active]. constructor; [simpl; intuition discriminate|].
  constructor; [simpl; tauto|constructor].
Defined.

(** Per-channel ordering: across successive broadcasts, a registered
    channel (in a registry without duplicates) whose sends all succeed
    stays registered and receives the events once each, in call order. *)
Theorem broadcast_seq_channel_order : forall evs w c,
  NoDup (active w) -> In c (active w) -> Forall (fun p => fst p c = true) evs ->
  In c (active (broadcast_seq evs w)) /\ NoDup (active (broadcast_seq evs w)) /\
  chan_log c (sent (broadcast_seq evs w)) = chan_log c (sent w) ++ map snd evs.
Proof.
  induction evs as [|[ok ev] evs IH]; intros w c Hnd Hin Hok.
  - cbn. rewrite app_nil_r. auto.
  - inversion Hok as [|? ? Hc Hrest]; subst. cbn [fst] in Hc.
    change (broadcast_seq ((ok, ev) :: evs) w)
      with (broadcast_seq evs (snd (broadcast ok ev w))).
    rewrite broadcast_spec. cbn [snd].
    destruct (IH (mkWorld (w_state w) (w_controller w) (filter ok (active w))
                  (sent w ++ map (fun c0 => (c0, ev)) (filter ok (active w)))) c)
      as [H1 [H2 H3]]; cbn [active sent].
    + apply NoDup_filter. exact Hnd.
    + apply filter_In. split; assumption.
    + exact Hrest.
    + split; [exact H1|]. split; [exact H2|]. cbn [sent] in H3. rewrite H3, chan_log_app.
      rewrite (chan_log_once c ev) by (try apply NoDup_filter; try apply filter_In; auto).
      rewrite <- app_assoc. reflexivity.
Qed.

Lemma broadcast_seq_channel_order_witness :
  chan_log 1%nat (sent (broadcast_seq [(fun _ => true, EvClearCenter);
                                       (fun c => Nat.eqb c 1, EvBotReply None)]
                          (mkWorld STATE0 (init_controller 0) [1; 2]%nat []))) =
  [EvClearCenter; EvBotReply None].
Proof.
  refine (proj2 (proj2 (broadcast_seq_channel_order _ _ 1%nat _ _ _))).
  - cbn [active]. constructor; [simpl; intuition discriminate|].
    constructor; [simpl; tauto|constructor].
  - left. reflexivity.
  - repeat constructor.
Defined.

(** ** Further properties of the reply generator and the controller *)

(** [generate_response] returns normally exactly when the readings its
    template formats are finite numbers ([load_w], [sun_w], [battery_pct]
    for [power], [battery_pct] for [battery]; always for the other
    intents).  It raises [TypeError] on [None], [OverflowError] on an
    infinity and [ValueError] on NaN, for the first offending reading in
    the order [load_w], [sun_w], [battery_pct]. *)
Theorem generate_response_fails_iff : forall st c now r m i e,
  ((exists reply, generate_response st c now r m i = Ok reply) <->
   can_generate st i = true) /\
  (generate_response st c now r m i = Err e <->
   (i = Power /\ first_error [load_w st; sun_w st; battery_pct st] = Some e) \/
   (i = Battery /\ int_error (battery_pct st) = Some e)).
Proof.
  intros st c now r m i e. split; [split|].
  - intros [reply H]. destruct (can_generate st i) eqn:E; [reflexivity|].
    destruct (cannot_generate_err st c now r m i E) as [e' He]. congruence.
  - apply can_generate_ok.
  - destruct i; cbn [generate_response];
      try (split; [discriminate|intros [[H _]|[H _]]; discriminate H]).
    + destruct (load_w st) as [[q1| | |]|], (sun_w st) as [[q2| | |]|],
        (battery_pct st) as [[q3| | |]|];
        cbn [py_int int_of_float first_error int_error];
        (split; [intros H; first [discriminate H | left; split; congruence]
                | intros [[_ H]|[H _]]; [congruence|discriminate H]]).
    + destruct (battery_pct st) as [[q| | |]|]; cbn [py_int int_of_float int_error];
        (split; [intros H; first [discriminate H | right; split; congruence]
                | intros [[H _]|[_ H]]; [discriminate H|congruence]]).
Qed.

Lemma choice_in : forall {A} r (d : A) xs, xs <> [] -> In (choice r d xs) xs.
Proof.
  intros A r d xs H. unfold choice. apply nth_In.
  apply Nat.mod_upper_bound. intros E. apply H. destruct xs; [reflexivity|discriminate].
Qed.

(** Whatever the random choice, a greeting, status or unknown reply is
    one of its three canned strings, and a battery or power reply whose
    readings are finite is one of its three templates filled with the
    [int()] (truncation toward zero) of the current readings. *)
Theorem generate_response_in_patterns : forall st c now r m,
  returns_one_of (generate_response st c now r m Greeting) greeting_patterns /\
  returns_one_of (generate_response st c now r m Status) status_patterns /\
  returns_one_of (generate_response st c now r m Unknown) unknown_patterns /\
  (forall b, battery_pct st = Some (Fin b) ->
   returns_one_of (generate_response st c now r m Battery)
       (battery_patterns (str_int (trunc b)))) /\
  (forall lw sw b, load_w st = Some (Fin lw) -> sun_w st = Some (Fin sw) ->
   battery_pct st = Some (Fin b) ->
   returns_one_of (generate_response st c now r m Power)
       (power_patterns (str_int (trunc lw)) (str_int (trunc sw)) (str_int (trunc b)))).
Proof.
  intros st c now r m.
  split; [|split; [|split; [|split]]]; cbn [generate_response returns_one_of].
  - apply choice_in. discriminate.
  - apply choice_in. discriminate.
  - apply choice_in. discriminate.
  - intros b Hb. rewrite Hb. cbn [py_int int_of_float returns_one_of].
    apply choice_in. discriminate.
  - intros lw sw b Hl Hs Hb. rewrite Hl, Hs, Hb. cbn [py_int int_of_float returns_one_of].
    apply choice_in. discriminate.
Qed.

Lemma generate_response_in_patterns_witness :
  returns_one_of (generate_response STATE0 (init_controller 0) 0 5%nat [] Battery)
    (battery_patterns (str_int 76)).
Proof.
  exact (proj1 (proj2 (proj2 (proj2 (generate_response_in_patterns STATE0 (init_controller 0)
           0 5%nat []))))
           (76 # 1) eq_refl).
Defined.

(** A controller created at [t0] ([__init__] sets [last_maintenance] to
    [t0] minus 7 days) reports maintenance as overdue exactly from 24
    whole days after [t0] on. *)
Theorem maintenance_overdue_after_24_days : forall st t0 t r m,
  let d := (t - t0) / usec_per_day in
  generate_response st (init_controller t0) t r m Maintenance =
    Ok (maintenance_reply (d + 7)) /\
  (30 < d + 7 <-> 24 * usec_per_day <= t - t0).
Proof.
  intros st t0 t r m d. split.
  - cbn [generate_response init_controller last_maintenance]. do 2 f_equal.
    unfold d. replace (t - (t0 - 7 * usec_per_day)) with (t - t0 + 7 * usec_per_day) by lia.
    apply Z.div_add. unfold usec_per_day. lia.
  - assert (Hp : 0 < usec_per_day) by (unfold usec_per_day; lia).
    split; intros H.
    + assert (H24 : 24 <= d) by lia. unfold d in H24.
      pose proof (Z.mul_div_le (t - t0) usec_per_day Hp). nia.
    + assert (24 <= d); [|lia]. unfold d. apply Z.div_le_lower_bound; [exact Hp|lia].
Qed.

(** The 20-entry cap is kept: on a log of at most 20 entries,
    [add_to_history] gives [min (n + 1) 20] entries ending with the new
    one, and [process_message] never takes the log above 20. *)
Theorem history_cap_preserved : forall h t u b,
  (List.length h <= 20)%nat ->
  List.length (add_to_history t u b h) = Nat.min (List.length h + 1) 20 /\
  (exists pre, add_to_history t u b h = pre ++ [mk_entry t u b]) /\
  (forall st c t_gen r m, conversation_history c = h ->
   (List.length (conversation_history (snd (process_message st c t_gen t r m))) <= 20)%nat).
Proof.
  assert (Hlen : forall h t u b, (List.length h <= 20)%nat ->
            List.length (add_to_history t u b h) = Nat.min (List.length h + 1) 20).
  { intros h t u b Hh. unfold add_to_history. rewrite length_app. cbn [List.length].
    destruct (Nat.ltb_spec 20 (List.length h + 1)).
    - destruct h as [|x h']; [cbn in *; lia|]. cbn [tl app List.length] in *.
      rewrite length_app. cbn [List.length]. lia.
    - rewrite length_app. cbn [List.length]. lia. }
  intros h t u b Hh. split; [|split].
  - apply Hlen. exact Hh.
  - unfold add_to_history. destruct (Nat.ltb_spec 20 (List.length (h ++ [mk_entry t u b]))).
    + destruct h as [|x h']; cbn [tl app].
      * cbn in *. lia.
      * exists h'. reflexivity.
    + exists h. reflexivity.
  - intros st c t_gen r m Hc. unfold process_message.
    destruct (generate_response st c t_gen r m _); cbn [snd conversation_history].
    + rewrite Hc, Hlen by exact Hh. lia.
    + rewrite Hc. exact Hh.
Qed.

Lemma history_cap_preserved_witness :
  List.length (add_to_history 0 [] [] (repeat (mk_entry 0 [] []) 20)) = 20%nat.
Proof.
  exact (proj1 (history_cap_preserved (repeat (mk_entry 0 [] []) 20) 0 [] []
                  (Nat.le_refl 20))).
Defined.

Lemma lower_char_idem : forall c, lower_char (lower_char c) = lower_char c.
Proof.
  intros [b0 b1 b2 b3 b4 b5 b6 b7].
  destruct b0, b1, b2, b3, b4, b5, b6, b7; reflexivity.
Qed.

(** Classification ignores letter case: lower-casing a message first
    does not change its intent or confidence. *)
Theorem analyze_message_case_insensitive : forall m,
  analyze_message (lower m) = analyze_message m.
Proof.
  intros m. unfold analyze_message.
  replace (lower (lower m)) with (lower m); [reflexivity|].
  unfold lower. rewrite map_map. apply map_ext. intros c. symmetry. apply lower_char_idem.
Qed.

Lemma setattr_merge : forall {A} (u1 u2 : option A) x,
  setattr_opt u2 (setattr_opt u1 x) = setattr_opt (merge_opt u1 u2) x.
Proof. intros A [v1|] [v2|] x; reflexivity. Qed.

(** Two successive [PUT /api/state] calls leave the state the single
    merged update would (a field sent by the later call wins, a field
    sent by neither keeps its value); repeating one update changes
    nothing more. *)
Theorem update_state_compose : forall ok1 ok2 u1 u2 w,
  w_state (update_state ok2 u2 (update_state ok1 u1 w)) =
    apply_update (merge_update u1 u2) (w_state w) /\
  apply_update u1 (apply_update u1 (w_state w)) = apply_update u1 (w_state w).
Proof.
  intros ok1 ok2 u1 u2 w. unfold update_state. rewrite !broadcast_spec.
  cbn [snd w_state with_state]. split.
  - unfold apply_update, merge_update. cbn. rewrite !setattr_merge. reflexivity.
  - unfold apply_update. cbn.
    destruct u1 as [h e bp lw sw lmin lmax smin smax lul]; cbn [u_headline u_eve
      u_battery_pct u_load_w u_sun_w u_load_min_w u_load_max_w u_sun_min_w u_sun_max_w
      u_last_user_line].
    rewrite !setattr_merge.
    destruct h, e, bp, lw, sw, lmin, lmax, smin, smax, lul; reflexivity.
Qed.
